(** * Make-a-Homie: the login and registration screens

    A shallow embedding of [src/Frontend/Login.jsx] (component [Login],
    handler [handleLogin]) and of the registration component ([Register],
    handler [handleRegister]), followed by the properties of the two
    submission handlers and of whole sessions on a screen.

    The handlers are asynchronous event handlers that talk to four
    collaborators: the component's own React state, the axios HTTP client,
    [localStorage] and the router's [navigate].  They are embedded as
    programs of a small free monad with exceptions ([Prog]); an interpreter
    ([run]) executes a program against a network and a world, and records
    every call together with the world in which it was made.

    Two features of the collaborators are part of the model.  A state setter
    does not change the state at once: React applies the update when the
    running piece of the handler has returned, that is at the [await] or at
    the end.  And [localStorage.setItem] can throw (quota exceeded, storage
    disabled); in [handleLogin] the call sits inside the [try]. *)

From stdpp Require Import base gmap strings list.

Set Warnings "-register-all".
Open Scope string_scope.
Open Scope Z_scope.

(** ** JavaScript values

    The payload of an HTTP response and the argument of [setError] are
    arbitrary JavaScript values.  Numbers are restricted to integers: no
    property below depends on a fractional payload. *)

Inductive JsValue : Type :=
| JUndefined
| JNull
| JBool (b : bool)
| JNum (n : Z)
| JStr (s : string)
| JArr (items : list JsValue)
| JObj (props : gmap string JsValue).

(** [if (v)] and [v && ...]: JavaScript truthiness. *)
Definition truthy (v : JsValue) : bool :=
  match v with
  | JUndefined | JNull => false
  | JBool b => b
  | JNum n => negb (n =? 0)
  | JStr s => negb (String.eqb s "")
  | JArr _ | JObj _ => true
  end.

Definition nullish (v : JsValue) : bool :=
  match v with
  | JUndefined | JNull => true
  | _ => false
  end.

(** [v.k] for a value [v] that is neither [null] nor [undefined] and a key
    [k] that is not a built-in property of strings, numbers or arrays (the
    only key read by the source is [detail]). *)
Definition member (v : JsValue) (k : string) : JsValue :=
  match v with
  | JObj props => default JUndefined (props !! k)
  | _ => JUndefined
  end.

(** [v?.k]: optional chaining yields [undefined] on a nullish receiver. *)
Definition opt_member (v : JsValue) (k : string) : JsValue :=
  if nullish v then JUndefined else member v k.

(** ** The axios collaborator *)

Record AxiosResponse : Type := { status : Z; data : JsValue }.

(** What a [catch] clause can receive: the error axios rejects with, whose
    [response] field is set only when the server answered; a [TypeError]
    raised by a property access on [undefined] or [null]; or the
    [DOMException] raised by a refused [localStorage.setItem]. *)
Inductive Exn : Type :=
| AxiosError (response : option AxiosResponse)
| TypeError
| DOMException.

(** [err.response] *)
Definition exn_response (err : Exn) : option AxiosResponse :=
  match err with
  | AxiosError r => r
  | TypeError => None
  | DOMException => None
  end.

(** What the network does with a request: it is lost, or the server answers
    with a status code and a body. *)
Inductive HttpOutcome : Type :=
| NoResponse
| HttpResponse (status : Z) (data : JsValue).

(** axios' default [validateStatus]: the promise is fulfilled for a status in
    [200, 300) and rejected otherwise. *)
Definition validateStatus (status : Z) : bool :=
  (200 <=? status) && (status <? 300).

Definition settle (o : HttpOutcome) : Exn + AxiosResponse :=
  match o with
  | NoResponse => inl (AxiosError None)
  | HttpResponse st d =>
      if validateStatus st
      then inr {| status := st; data := d |}
      else inl (AxiosError (Some {| status := st; data := d |}))
  end.

Definition Network : Type := string → JsValue → HttpOutcome.

(** ** Programs *)

(** The calls a handler makes on its collaborators, indexed by the type of
    what the call gives back. *)
Inductive Eff : Type → Type :=
| PreventDefault : Eff unit                       (* e.preventDefault() *)
| SetUserId (v : string) : Eff unit               (* setUserId(v) *)
| SetPassword (v : string) : Eff unit             (* setPassword(v) *)
| SetError (v : JsValue) : Eff unit               (* setError(v) *)
| AxiosPost (url : string) (body : JsValue)
    : Eff (Exn + AxiosResponse)                   (* await axios.post(url, body) *)
| SetItem (key value : string)
    : Eff (Exn + unit)                            (* localStorage.setItem(key, value) *)
| Alert (msg : string) : Eff unit                 (* alert(msg) *)
| Navigate (to : string) : Eff unit.              (* navigate(to) *)

Inductive Prog (A : Type) : Type :=
| Ret (a : A)
| Throw (err : Exn)
| Vis {X : Type} (e : Eff X) (k : X → Prog A).

Arguments Ret {A} a.
Arguments Throw {A} err.
Arguments Vis {A X} e k.

Fixpoint bind {A B : Type} (p : Prog A) (f : A → Prog B) : Prog B :=
  match p with
  | Ret a => f a
  | Throw err => Throw err
  | Vis e k => Vis e (λ x, bind (k x) f)
  end.

#[global] Instance Prog_ret : MRet Prog := @Ret.
#[global] Instance Prog_bind : MBind Prog := λ A B f p, bind p f.

(** [try { body } catch (err) { handler err }] *)
Fixpoint try_catch {A : Type} (body : Prog A) (handler : Exn → Prog A) : Prog A :=
  match body with
  | Ret a => Ret a
  | Throw err => handler err
  | Vis e k => Vis e (λ x, try_catch (k x) handler)
  end.

Definition call {X : Type} (e : Eff X) : Prog X := Vis e Ret.

(** [await p]: a rejected promise is thrown at the [await]. *)
Definition await {A : Type} (p : Prog (Exn + A)) : Prog A :=
  r ← p;
  match r with
  | inl err => Throw err
  | inr a => Ret a
  end.

(** ** The world and the interpreter *)

Record World : Type := {
  userId : string;                      (* useState("") *)
  password : string;                    (* useState("") *)
  error : JsValue;                      (* useState("") *)
  localStorage : gmap string string;
  (* whether setItem(key, value) throws, given what the storage holds *)
  setItem_throws : gmap string string → string → string → bool;
  location : string                     (* the router's current route *)
}.

Inductive Event : Type :=
| Call {X : Type} (e : Eff X).

(** One entry of the trace: the call, and the world in which it was made
    (the state fields are those of the last render). *)
Record Step : Type := { at_world : World; event : Event }.

Definition set_userId (v : string) (w : World) : World :=
  {| userId := v; password := password w; error := error w;
     localStorage := localStorage w; setItem_throws := setItem_throws w;
     location := location w |}.

Definition set_password (v : string) (w : World) : World :=
  {| userId := userId w; password := v; error := error w;
     localStorage := localStorage w; setItem_throws := setItem_throws w;
     location := location w |}.

Definition set_error (v : JsValue) (w : World) : World :=
  {| userId := userId w; password := password w; error := v;
     localStorage := localStorage w; setItem_throws := setItem_throws w;
     location := location w |}.

Definition set_item (key value : string) (w : World) : World :=
  {| userId := userId w; password := password w; error := error w;
     localStorage := <[key := value]> (localStorage w);
     setItem_throws := setItem_throws w;
     location := location w |}.

Definition set_location (to : string) (w : World) : World :=
  {| userId := userId w; password := password w; error := error w;
     localStorage := localStorage w; setItem_throws := setItem_throws w;
     location := to |}.

(** [localStorage.setItem(key, value)] is refused in world [w]. *)
Definition refused (key value : string) (w : World) : bool :=
  setItem_throws w (localStorage w) key value.

(** A state update requested by a setter and not applied yet. *)
Inductive Update : Type :=
| UserIdTo (v : string)
| PasswordTo (v : string)
| ErrorTo (v : JsValue).

Definition apply_update (w : World) (u : Update) : World :=
  match u with
  | UserIdTo v => set_userId v w
  | PasswordTo v => set_password v w
  | ErrorTo v => set_error v w
  end.

(** Apply the queued updates, oldest first. *)
Definition commit (queue : list Update) (w : World) : World :=
  foldl apply_update w queue.

(** The effect of one call: what it gives back, the world after it, and the
    state updates it requests.  A setter only requests its update; a refused
    [setItem] gives back its exception and writes nothing. *)
Definition perform {X : Type} (net : Network) (e : Eff X) (w : World)
    : X * World * list Update :=
  match e in Eff X return X * World * list Update with
  | PreventDefault => (tt, w, [])
  | SetUserId v => (tt, w, [UserIdTo v])
  | SetPassword v => (tt, w, [PasswordTo v])
  | SetError v => (tt, w, [ErrorTo v])
  | AxiosPost url body => (settle (net url body), w, [])
  | SetItem key value =>
      if refused key value w
      then (inl DOMException, w, [])
      else (inr tt, set_item key value w, [])
  | Alert _ => (tt, w, [])
  | Navigate to => (tt, set_location to w, [])
  end.

(** The calls at which the handler is parked until an answer arrives. *)
Definition suspends {X : Type} (e : Eff X) : bool :=
  match e with
  | AxiosPost _ _ => true
  | _ => false
  end.

(** How a handler ends: it returns, or an exception escapes it. *)
Inductive Completion (A : Type) : Type :=
| Returned (a : A)
| Uncaught (err : Exn).

Arguments Returned {A} a.
Arguments Uncaught {A} err.

Record Result (A : Type) : Type := {
  completion : Completion A;
  final : World;
  trace : list Step
}.

Arguments completion {A} r.
Arguments final {A} r.
Arguments trace {A} r.

(** Run a program whose request is answered by [net] as soon as it is
    issued.  The queued state updates are applied where the handler is
    parked and where it ends. *)
Fixpoint run_queued {A : Type} (net : Network) (p : Prog A) (w : World)
    (queue : list Update) : Result A :=
  match p with
  | Ret a => {| completion := Returned a; final := commit queue w; trace := [] |}
  | Throw err => {| completion := Uncaught err; final := commit queue w; trace := [] |}
  | Vis e k =>
      let '(x, w', us) := perform net e w in
      let r := if suspends e
               then run_queued net (k x) (commit (queue ++ us) w') []
               else run_queued net (k x) w' (queue ++ us) in
      {| completion := completion r; final := final r;
         trace := {| at_world := w; event := Call e |} :: trace r |}
  end.

Definition run {A : Type} (net : Network) (p : Prog A) (w : World) : Result A :=
  run_queued net p w [].

(** ** HTML forms *)

Record Input : Type := {
  input_type : string;
  input_value : string;
  required : bool
}.

(** Constraint validation of a text or password input: a [required] control
    whose value is the empty string suffers from a missing value. *)
Definition valueMissing (i : Input) : bool :=
  required i && String.eqb (input_value i) "".

Record Form : Type := {
  inputs : list Input;
  onSubmit : Prog unit
}.

Definition checkValidity (f : Form) : bool :=
  forallb (λ i, negb (valueMissing i)) (inputs f).

(** A submission attempt by the user (the submit button, or Enter in a
    field).  Neither form carries [noValidate], so the browser validates the
    controls first and fires the [submit] event only when all are valid. *)
Definition requestSubmit (f : Form) : Prog unit :=
  if checkValidity f then onSubmit f else Ret tt.

(** ** Code shared in shape by the two components *)

(** The object literal [{ user_id: userId, password }]. *)
Definition credentials (userId password : string) : JsValue :=
  JObj {[ "user_id" := JStr userId; "password" := JStr password ]}.

(** [err.response?.data?.detail] *)
Definition response_data_detail_opt (err : Exn) : JsValue :=
  match exn_response err with
  | None => JUndefined
  | Some r => opt_member (data r) "detail"
  end.

(** [err.response.data.detail]: without [?.], reading a property of
    [undefined] or [null] raises a [TypeError]. *)
Definition response_data_detail (err : Exn) : Prog JsValue :=
  match exn_response err with
  | None => Throw TypeError
  | Some r => if nullish (data r) then Throw TypeError else Ret (member (data r) "detail")
  end.

(** The guard of [{error && <p className="text-red-500">{error}</p>}]: the
    value handed to the paragraph when [error] is truthy, and nothing when it
    is not.  How React draws that value (a string as text, [true] or an empty
    array as nothing, an object not at all) is not modelled. *)
Definition error_banner (w : World) : option JsValue :=
  if truthy (error w) then Some (error w) else None.

(** [localStorage.setItem(key, value)], which throws when the storage
    refuses the write. *)
Definition localStorage_setItem (key value : string) : Prog unit :=
  r ← call (SetItem key value);
  match r with
  | inl err => Throw err
  | inr _ => Ret tt
  end.

(** What the user can do on a screen. *)
Inductive UiEvent : Type :=
| TypeUserId (v : string)       (* onChange of the first input *)
| TypePassword (v : string)     (* onChange of the second input *)
| SubmitForm                    (* a submission attempt on the form *)
| ClickLink.                    (* onClick of the span under the form *)

(** ** src/Frontend/Login.jsx *)

Module Login.

Definition endpoint : string := "http://127.0.0.1:8000/login".

Definition handleLogin (userId password : string) : Prog unit :=
  call PreventDefault;;
  call (SetError (JStr ""));;
  try_catch
    (_ ← await (call (AxiosPost endpoint (credentials userId password)));
     localStorage_setItem "userId" userId;;
     call (Navigate "/profile"))
    (λ err,
       if truthy (response_data_detail_opt err)
       then d ← response_data_detail err; call (SetError d)
       else call (SetError (JStr "Login failed."))).

(** The form as rendered from the state [w]; the handler closes over the
    rendered [userId] and [password]. *)
Definition form (w : World) : Form :=
  {| inputs :=
       [ {| input_type := "text"; input_value := userId w; required := true |};
         {| input_type := "password"; input_value := password w; required := true |} ];
     onSubmit := handleLogin (userId w) (password w) |}.

(** [onClick={() => navigate("/register")}] *)
Definition onClickSignUp : Prog unit := call (Navigate "/register").

Definition dispatch (w : World) (u : UiEvent) : Prog unit :=
  match u with
  | TypeUserId v => call (SetUserId v)
  | TypePassword v => call (SetPassword v)
  | SubmitForm => requestSubmit (form w)
  | ClickLink => onClickSignUp
  end.

End Login.

(** ** The registration component *)

Module Register.

Definition endpoint : string := "http://127.0.0.1:8000/register".

Definition handleRegister (userId password : string) : Prog unit :=
  call PreventDefault;;
  call (SetError (JStr ""));;
  try_catch
    (_ ← await (call (AxiosPost endpoint (credentials userId password)));
     call (Alert "Registration successful! Please log in.");;
     call (Navigate "/"))
    (λ err,
       if truthy (response_data_detail_opt err)
       then d ← response_data_detail err; call (SetError d)
       else call (SetError (JStr "Registration failed."))).

Definition form (w : World) : Form :=
  {| inputs :=
       [ {| input_type := "text"; input_value := userId w; required := true |};
         {| input_type := "password"; input_value := password w; required := true |} ];
     onSubmit := handleRegister (userId w) (password w) |}.

(** [onClick={() => navigate("/")}] *)
Definition onClickLogIn : Prog unit := call (Navigate "/").

Definition dispatch (w : World) (u : UiEvent) : Prog unit :=
  match u with
  | TypeUserId v => call (SetUserId v)
  | TypePassword v => call (SetPassword v)
  | SubmitForm => requestSubmit (form w)
  | ClickLink => onClickLogIn
  end.

End Register.

(** ** The two screens side by side *)

Inductive Screen : Type := LoginScreen | RegisterScreen.

Definition endpoint (s : Screen) : string :=
  match s with
  | LoginScreen => Login.endpoint
  | RegisterScreen => Register.endpoint
  end.

Definition handler (s : Screen) (userId password : string) : Prog unit :=
  match s with
  | LoginScreen => Login.handleLogin userId password
  | RegisterScreen => Register.handleRegister userId password
  end.

Definition form (s : Screen) (w : World) : Form :=
  match s with
  | LoginScreen => Login.form w
  | RegisterScreen => Register.form w
  end.

Definition dispatch (s : Screen) (w : World) (u : UiEvent) : Prog unit :=
  match s with
  | LoginScreen => Login.dispatch w u
  | RegisterScreen => Register.dispatch w u
  end.

(** The fixed message of the [else] branch of each [catch]. *)
Definition generic_message (s : Screen) : string :=
  match s with
  | LoginScreen => "Login failed."
  | RegisterScreen => "Registration failed."
  end.

(** ** Reading a trace *)

Definition posts (t : list Step) : list (string * JsValue) :=
  omap (λ s, match event s with
             | Call (AxiosPost url body) => Some (url, body)
             | _ => None
             end) t.

Definition storage_writes (t : list Step) : list (string * string) :=
  omap (λ s, match event s with
             | Call (SetItem key value) => Some (key, value)
             | _ => None
             end) t.

Definition navigations (t : list Step) : list string :=
  omap (λ s, match event s with
             | Call (Navigate to) => Some to
             | _ => None
             end) t.

Definition alerts (t : list Step) : list string :=
  omap (λ s, match event s with
             | Call (Alert msg) => Some msg
             | _ => None
             end) t.

(** ** The outcome of a request, as the properties speak of it *)

(** The request failed: axios rejects the promise. *)
Definition failed (o : HttpOutcome) : bool :=
  match settle o with
  | inl _ => true
  | inr _ => false
  end.

(** The [detail] field of the response body, when there is a response, its
    body is an object and the object has the field. *)
Definition body_detail (o : HttpOutcome) : option JsValue :=
  match o with
  | HttpResponse _ (JObj props) => props !! "detail"
  | _ => None
  end.

(** The calls a program makes, without the worlds. *)
Definition calls (t : list Step) : list Event := event <$> t.

(** The error state a failure leaves behind: the [catch] clause of either
    handler stores the [detail] it read when that is truthy, and the
    screen's fixed message otherwise. *)
Definition shown (s : Screen) (err : Exn) : JsValue :=
  if truthy (response_data_detail_opt err)
  then response_data_detail_opt err
  else JStr (generic_message s).

Definition step (w : World) {X : Type} (e : Eff X) : Step :=
  {| at_world := w; event := Call e |}.

(** The one situation in which a user action ends in a successful login:
    a valid submission of the login form whose request is fulfilled. *)
Definition login_success (s : Screen) (net : Network) (w : World) (u : UiEvent) : bool :=
  match s, u with
  | LoginScreen, SubmitForm =>
      checkValidity (Login.form w)
      && negb (failed (net Login.endpoint (credentials (userId w) (password w))))
  | _, _ => false
  end.

(** ** The event loop

    A handler does not run in one piece: it runs up to its [await], where the
    request has been issued and the handler is parked, and goes on when the
    answer arrives.  In between the page stays live: the user can type, click
    and submit again, and answers can come back in any order, or never.

    The loop follows the handlers of one screen.  It does not model the
    router replacing the screen after a [navigate]: the three state fields
    of the world are those of the component, which are on display only while
    no navigation has taken place. *)

(** Where a program stands once it can go no further on its own: it has
    ended, or it is parked at an [await] on the request it has just issued. *)
Inductive Pause (A : Type) : Type :=
| Ended (c : Completion A)
| Awaiting (url : string) (body : JsValue) (resume : Exn + AxiosResponse → Prog A).

Arguments Ended {A} c.
Arguments Awaiting {A} url body resume.

(** Record the call [e], made in world [w], in front of what follows it. *)
Definition after_call {A X : Type} (w : World) (e : Eff X)
    (rest : Pause A * World * list Step) : Pause A * World * list Step :=
  let '(p, w', t) := rest in (p, w', step w e :: t).

(** Run a program up to its end or its first [await], where the queued state
    updates are applied.  The calls other than [axios.post] act as in
    [perform]. *)
Fixpoint run_sync {A : Type} (p : Prog A) (w : World) (queue : list Update)
    : Pause A * World * list Step :=
  match p with
  | Ret a => (Ended (Returned a), commit queue w, [])
  | Throw err => (Ended (Uncaught err), commit queue w, [])
  | Vis e k =>
      match e in Eff X return (X → Prog A) → Pause A * World * list Step with
      | AxiosPost url body =>
          λ k, (Awaiting url body k, commit queue w, [step w (AxiosPost url body)])
      | PreventDefault => λ k, after_call w PreventDefault (run_sync (k tt) w queue)
      | SetUserId v =>
          λ k, after_call w (SetUserId v) (run_sync (k tt) w (queue ++ [UserIdTo v]))
      | SetPassword v =>
          λ k, after_call w (SetPassword v) (run_sync (k tt) w (queue ++ [PasswordTo v]))
      | SetError v =>
          λ k, after_call w (SetError v) (run_sync (k tt) w (queue ++ [ErrorTo v]))
      | SetItem key value =>
          λ k, after_call w (SetItem key value)
                 (if refused key value w
                  then run_sync (k (inl DOMException)) w queue
                  else run_sync (k (inr tt)) (set_item key value w) queue)
      | Alert msg => λ k, after_call w (Alert msg) (run_sync (k tt) w queue)
      | Navigate to =>
          λ k, after_call w (Navigate to) (run_sync (k tt) (set_location to w) queue)
      end k
  end.

(** A request in flight, with the parked rest of the handler that issued it. *)
Record Pending : Type := {
  request_url : string;
  request_body : JsValue;
  resume : Exn + AxiosResponse → Prog unit
}.

Record Loop : Type := {
  world : World;
  pending : list Pending;       (* the requests in flight, oldest first *)
  history : list Step;          (* every call made so far *)
  unhandled : list Exn          (* exceptions that escaped a handler *)
}.

(** Start or resume a handler in the current world, up to its next pause. *)
Definition advance (st : Loop) (p : Prog unit) : Loop :=
  let '(pause, w', t) := run_sync p (world st) [] in
  {| world := w';
     pending := pending st ++
       match pause with
       | Awaiting url body k =>
           [ {| request_url := url; request_body := body; resume := k |} ]
       | Ended _ => []
       end;
     history := history st ++ t;
     unhandled := unhandled st ++
       match pause with
       | Ended (Uncaught err) => [err]
       | _ => []
       end |}.

(** What can happen next: the user acts on the screen, or the request at
    position [i] of the requests in flight is settled with outcome [o]. *)
Inductive LoopEvent : Type :=
| User (u : UiEvent)
| Answer (i : nat) (o : HttpOutcome).

(** One turn of the loop.  A user action runs the handler of the current
    render, which closes over the current state; an answer resumes the parked
    handler it belongs to (an answer to no request in flight does nothing). *)
Definition react (s : Screen) (st : Loop) (ev : LoopEvent) : Loop :=
  match ev with
  | User u => advance st (dispatch s (world st) u)
  | Answer i o =>
      match pending st !! i with
      | None => st
      | Some p =>
          advance {| world := world st; pending := delete i (pending st);
                     history := history st; unhandled := unhandled st |}
                  (resume p (settle o))
      end
  end.

Definition exec (s : Screen) (events : list LoopEvent) (st : Loop) : Loop :=
  foldl (react s) st events.

Definition boot (w : World) : Loop :=
  {| world := w; pending := []; history := []; unhandled := [] |}.

#[global] Instance UiEvent_eq_dec : EqDecision UiEvent.
Proof. solve_decision. Defined.

(** The submission attempts among the events. *)
Definition is_submission (ev : LoopEvent) : bool :=
  match ev with
  | User SubmitForm => true
  | _ => false
  end.

(** What the parked rest of a handler does once its request is settled with
    [r]: the world it leaves and the calls it makes.  On the login screen a
    fulfilled request is followed by the storage write, which can be
    refused. *)
Definition settled_world (s : Screen) (uid : string) (r : Exn + AxiosResponse)
    (w : World) : World :=
  match r, s with
  | inl err, _ => set_error (shown s err) w
  | inr _, LoginScreen =>
      if refused "userId" uid w
      then set_error (JStr "Login failed.") w
      else set_location "/profile" (set_item "userId" uid w)
  | inr _, RegisterScreen => set_location "/" w
  end.

Definition settled_steps (s : Screen) (uid : string) (r : Exn + AxiosResponse)
    (w : World) : list Step :=
  match r, s with
  | inl err, _ => [ step w (SetError (shown s err)) ]
  | inr _, LoginScreen =>
      if refused "userId" uid w
      then [ step w (SetItem "userId" uid);
             step w (SetError (JStr "Login failed.")) ]
      else [ step w (SetItem "userId" uid);
             step (set_item "userId" uid w) (Navigate "/profile") ]
  | inr _, RegisterScreen =>
      [ step w (Alert "Registration successful! Please log in.");
        step w (Navigate "/") ]
  end.

(** A request in flight of screen [s]: it went to the screen's endpoint with
    a non-empty identifier and secret, and its parked handler is the rest of
    the screen's submission handler for that identifier. *)
Definition in_flight (s : Screen) (uid : string) (p : Pending) : Prop :=
  uid ≠ "" ∧
  request_url p = endpoint s ∧
  (∃ pw, pw ≠ "" ∧ request_body p = credentials uid pw) ∧
  ∀ r w, run_sync (resume p r) w [] =
           (Ended (Returned tt), settled_world s uid r w, settled_steps s uid r w).

(** A request of the trace that a screen's form can have sent. *)
Definition well_formed_post (s : Screen) (post : string * JsValue) : Prop :=
  post.1 = endpoint s ∧
  ∃ uid pw, uid ≠ "" ∧ pw ≠ "" ∧ post.2 = credentials uid pw.

(** The user actions that are not submission attempts. *)
Definition edits_only (us : list UiEvent) : Prop :=
  Forall (λ u, u ≠ SubmitForm) us.

(** The user actions that are keystrokes in one of the two fields. *)
Definition typing_only (us : list UiEvent) : Prop :=
  Forall (λ u, ∃ v, u = TypeUserId v ∨ u = TypePassword v) us.

(** What holds of the loop at every moment of a session on screen [s] that
    started in world [w0]. *)
Record sound (s : Screen) (w0 : World) (st : Loop) : Prop := {
  sound_pending :
    Forall (λ p, (∃ uid, in_flight s uid p) ∧
                 (request_url p, request_body p) ∈ posts (history st))
           (pending st);
  sound_unhandled : unhandled st = [];
  sound_posts : Forall (well_formed_post s) (posts (history st));
  sound_frame :
    ∀ key, key ≠ "userId" →
           localStorage (world st) !! key = localStorage w0 !! key;
  sound_register :
    s = RegisterScreen →
    localStorage (world st) = localStorage w0 ∧ storage_writes (history st) = [];
  sound_writes :
    Forall (λ kv, kv.1 = "userId" ∧
                  ∃ pw, (endpoint s, credentials kv.2 pw) ∈ posts (history st))
           (storage_writes (history st))
}.

(** ** Sample worlds and networks *)

Definition accepting : gmap string string → string → string → bool :=
  λ _ _ _, false.

Definition bob : World :=
  {| userId := "bob"; password := "x"; error := JStr "stale";
     localStorage := ∅; setItem_throws := accepting; location := "/" |}.

Definition alice : World :=
  {| userId := "alice"; password := "pw123"; error := JStr "";
     localStorage := ∅; setItem_throws := accepting; location := "/register" |}.

Definition nobody : World :=
  {| userId := ""; password := "pw123"; error := JStr "";
     localStorage := ∅; setItem_throws := accepting; location := "/" |}.

(** A browser whose storage refuses every write. *)
Definition bob_without_storage : World :=
  {| userId := "bob"; password := "x"; error := JStr "";
     localStorage := ∅; setItem_throws := λ _ _ _, true; location := "/" |}.

Definition net_ok : Network := λ _ _, HttpResponse 200 (JObj ∅).
Definition net_created : Network := λ _ _, HttpResponse 201 (JObj ∅).
Definition net_user_exists : Network :=
  λ _ _, HttpResponse 400 (JObj {[ "detail" := JStr "user exists" ]}).
Definition net_empty_detail : Network :=
  λ _ _, HttpResponse 400 (JObj {[ "detail" := JStr "" ]}).
Definition net_down : Network := λ _ _, NoResponse.
Definition returning : World :=
  {| userId := "bob"; password := "x"; error := JStr "";
     localStorage := {[ "theme" := "dark"; "userId" := "alice" ]};
     setItem_throws := accepting; location := "/" |}.

Definition net_invalid : Network :=
  λ _ _, HttpResponse 422 (JObj {[ "detail" := JArr [JStr "field required"] ]}).

(** * Properties *)

Arguments credentials : simpl never.
Arguments Login.endpoint : simpl never.
Arguments Register.endpoint : simpl never.
Arguments refused : simpl never.

(** ** Lemmas on the building blocks *)

Lemma validateStatus_2xx (st : Z) : validateStatus st = true ↔ 200 ≤ st < 300.
Proof. unfold validateStatus. rewrite andb_true_iff, Z.leb_le, Z.ltb_lt. done. Qed.

Lemma settle_success (st : Z) (d : JsValue) :
  200 ≤ st < 300 → settle (HttpResponse st d) = inr {| status := st; data := d |}.
Proof. intros H. apply validateStatus_2xx in H. simpl. by rewrite H. Qed.

Lemma failed_settle (o : HttpOutcome) :
  failed o = true → ∃ err, settle o = inl err.
Proof. unfold failed. destruct (settle o) as [err|r]; [eauto | done]. Qed.

(** Inside the [if], the plain property chain reads what the optional chain
    has just read: it cannot raise. *)
Lemma response_data_detail_guarded (err : Exn) :
  truthy (response_data_detail_opt err) = true →
  response_data_detail err = Ret (response_data_detail_opt err).
Proof.
  unfold response_data_detail, response_data_detail_opt, opt_member.
  destruct (exn_response err) as [r|]; [|done].
  by destruct (nullish (data r)).
Qed.

(** What the optional chain reads from the error of a failed request. *)
Lemma detail_of_failure (o : HttpOutcome) (err : Exn) :
  settle o = inl err →
  response_data_detail_opt err = default JUndefined (body_detail o).
Proof.
  destruct o as [|st d]; simpl.
  - by intros [= <-].
  - destruct (validateStatus st); [done|]. intros [= <-].
    unfold response_data_detail_opt, opt_member; simpl. by destruct d.
Qed.

Lemma run_failed (s : Screen) (net : Network) (uid pw : string) (w : World) (err : Exn) :
  settle (net (endpoint s) (credentials uid pw)) = inl err →
  run net (handler s uid pw) w =
    {| completion := Returned tt;
       final := set_error (shown s err) (set_error (JStr "") w);
       trace := [ step w PreventDefault;
                  step w (SetError (JStr ""));
                  step w (AxiosPost (endpoint s) (credentials uid pw));
                  step (set_error (JStr "") w) (SetError (shown s err)) ] |}.
Proof.
  intros Hs. unfold shown, run.
  destruct s; cbn in *; rewrite Hs; cbn;
    destruct (truthy (response_data_detail_opt err)) eqn:Ht; cbn; try done;
    rewrite (response_data_detail_guarded err Ht); done.
Qed.

Lemma run_login_success (net : Network) (uid pw : string) (w : World) (r : AxiosResponse) :
  settle (net Login.endpoint (credentials uid pw)) = inr r →
  refused "userId" uid w = false →
  run net (Login.handleLogin uid pw) w =
    {| completion := Returned tt;
       final := set_location "/profile" (set_item "userId" uid (set_error (JStr "") w));
       trace := [ step w PreventDefault;
                  step w (SetError (JStr ""));
                  step w (AxiosPost Login.endpoint (credentials uid pw));
                  step (set_error (JStr "") w) (SetItem "userId" uid);
                  step (set_item "userId" uid (set_error (JStr "") w)) (Navigate "/profile") ] |}.
Proof.
  intros Hs Hr. unfold run. cbn. rewrite Hs. cbn.
  change (refused "userId" uid (set_error (JStr "") w)) with (refused "userId" uid w).
  rewrite Hr. done.
Qed.

(** A fulfilled login whose storage write is refused: the [catch] clause
    takes the exception, which has no [response]. *)
Lemma run_login_refused (net : Network) (uid pw : string) (w : World) (r : AxiosResponse) :
  settle (net Login.endpoint (credentials uid pw)) = inr r →
  refused "userId" uid w = true →
  run net (Login.handleLogin uid pw) w =
    {| completion := Returned tt;
       final := set_error (JStr "Login failed.") (set_error (JStr "") w);
       trace := [ step w PreventDefault;
                  step w (SetError (JStr ""));
                  step w (AxiosPost Login.endpoint (credentials uid pw));
                  step (set_error (JStr "") w) (SetItem "userId" uid);
                  step (set_error (JStr "") w) (SetError (JStr "Login failed.")) ] |}.
Proof.
  intros Hs Hr. unfold run. cbn. rewrite Hs. cbn.
  change (refused "userId" uid (set_error (JStr "") w)) with (refused "userId" uid w).
  rewrite Hr. done.
Qed.

Lemma run_register_success (net : Network) (uid pw : string) (w : World) (r : AxiosResponse) :
  settle (net Register.endpoint (credentials uid pw)) = inr r →
  run net (Register.handleRegister uid pw) w =
    {| completion := Returned tt;
       final := set_location "/" (set_error (JStr "") w);
       trace := [ step w PreventDefault;
                  step w (SetError (JStr ""));
                  step w (AxiosPost Register.endpoint (credentials uid pw));
                  step (set_error (JStr "") w) (Alert "Registration successful! Please log in.");
                  step (set_error (JStr "") w) (Navigate "/") ] |}.
Proof. intros Hs. unfold run. cbn. rewrite Hs. done. Qed.

(** The two ways a fulfilled login can go on. *)
Ltac login_fulfilled net uid pw w r H :=
  let Hr := fresh "Hr" in
  destruct (refused "userId" uid w) eqn:Hr;
  [ rewrite (run_login_refused net uid pw w r H Hr)
  | rewrite (run_login_success net uid pw w r H Hr) ].

(** Either handler runs up to its request and parks, with the error state
    cleared; its parked rest, resumed with the settled request, ends
    normally. *)
Lemma run_sync_handler (s : Screen) (uid pw : string) (w : World) :
  ∃ k, run_sync (handler s uid pw) w [] =
         (Awaiting (endpoint s) (credentials uid pw) k,
          set_error (JStr "") w,
          [ step w PreventDefault;
            step w (SetError (JStr ""));
            step w (AxiosPost (endpoint s) (credentials uid pw)) ])
     ∧ ∀ r w', run_sync (k r) w' [] =
         (Ended (Returned tt), settled_world s uid r w', settled_steps s uid r w').
Proof.
  destruct s; (eexists; split; [reflexivity|]);
    intros [err|a] w'; cbn; unfold shown;
    try (destruct (truthy (response_data_detail_opt err)) eqn:Ht; cbn; try done;
         by rewrite (response_data_detail_guarded err Ht));
    try done.
  by destruct (refused "userId" uid w').
Qed.

Lemma checkValidity_form (s : Screen) (w : World) :
  checkValidity (form s w) = negb (String.eqb (userId w) "") && negb (String.eqb (password w) "").
Proof. destruct s; cbn; by rewrite andb_true_r. Qed.

Lemma requestSubmit_valid (s : Screen) (w : World) :
  userId w ≠ "" → password w ≠ "" →
  requestSubmit (form s w) = handler s (userId w) (password w).
Proof.
  intros Hu Hp. unfold requestSubmit. rewrite checkValidity_form.
  apply String.eqb_neq in Hu, Hp. rewrite Hu, Hp. by destruct s.
Qed.

Lemma requestSubmit_invalid (s : Screen) (w : World) :
  userId w = "" ∨ password w = "" → requestSubmit (form s w) = Ret tt.
Proof.
  intros H. unfold requestSubmit. rewrite checkValidity_form.
  destruct H as [-> | ->]; simpl; [done | by rewrite andb_false_r].
Qed.

Lemma dispatch_submit (s : Screen) (w : World) :
  dispatch s w SubmitForm = requestSubmit (form s w).
Proof. by destruct s. Qed.

Lemma settled (o : HttpOutcome) :
  (failed o = true ∧ ∃ err, settle o = inl err) ∨ (failed o = false ∧ ∃ r, settle o = inr r).
Proof. unfold failed. destruct (settle o); eauto. Qed.

(** ** Login: success *)

(** C1, as stated, fails in a browser whose storage refuses the write:
    [localStorage.setItem] sits inside the [try], so its exception is taken
    by the [catch] clause; nothing is stored and [navigate] is not reached. *)
Lemma refused_write_stores_nothing :
  ¬ (∀ (net : Network) (w : World) (st : Z) (d : JsValue),
       userId w ≠ "" →
       password w ≠ "" →
       net Login.endpoint (credentials (userId w) (password w)) = HttpResponse st d →
       200 ≤ st < 300 →
       localStorage (final (run net (requestSubmit (Login.form w)) w)) !! "userId"
         = Some (userId w) ∧
       location (final (run net (requestSubmit (Login.form w)) w)) = "/profile").
Proof.
  intros H.
  destruct (H net_ok bob_without_storage 200 (JObj ∅)) as [Hstored _];
    [discriminate | discriminate | reflexivity | lia |].
  vm_compute in Hstored. discriminate Hstored.
Qed.

(** C1, amended.  For a non-empty identifier and secret, when the POST of
    the login submission is answered with a 2xx status and the storage
    accepts the write, the handler writes exactly the submitted identifier
    under the storage key "userId" (and nothing else), navigates once, to
    "/profile", and returns. *)
Theorem login_success_stores_identifier (net : Network) (w : World) (st : Z) (d : JsValue) :
  userId w ≠ "" →
  password w ≠ "" →
  net Login.endpoint (credentials (userId w) (password w)) = HttpResponse st d →
  200 ≤ st < 300 →
  refused "userId" (userId w) w = false →
  let r := run net (requestSubmit (Login.form w)) w in
  completion r = Returned tt ∧
  localStorage (final r) !! "userId" = Some (userId w) ∧
  storage_writes (trace r) = [("userId", userId w)] ∧
  navigations (trace r) = ["/profile"] ∧
  location (final r) = "/profile".
Proof.
  intros Hu Hp Hnet Hst Hacc r. subst r.
  change (Login.form w) with (form LoginScreen w).
  rewrite (requestSubmit_valid LoginScreen w Hu Hp). simpl handler.
  erewrite run_login_success; [|rewrite Hnet; by apply settle_success|exact Hacc].
  cbn. rewrite lookup_insert_eq. done.
Qed.

Lemma login_success_stores_identifier_witness :
  let r := run net_ok (requestSubmit (Login.form bob)) bob in
  completion r = Returned tt ∧
  localStorage (final r) !! "userId" = Some "bob" ∧
  storage_writes (trace r) = [("userId", "bob")] ∧
  navigations (trace r) = ["/profile"] ∧
  location (final r) = "/profile".
Proof.
  apply (login_success_stores_identifier net_ok bob 200 (JObj ∅)).
  - discriminate.
  - discriminate.
  - reflexivity.
  - lia.
  - reflexivity.
Defined.

(** ** Failed requests: the message *)

(** C2, as stated, fails for a [detail] that is the empty string: the
    [catch] clause tests [detail] for truthiness, so the login screen then
    stores its generic message, not the empty string. *)
Lemma empty_detail_is_not_displayed :
  ¬ (∀ (s : Screen) (net : Network) (w : World) (X : string),
       failed (net (endpoint s) (credentials (userId w) (password w))) = true →
       body_detail (net (endpoint s) (credentials (userId w) (password w))) = Some (JStr X) →
       error (final (run net (handler s (userId w) (password w)) w)) = JStr X).
Proof.
  intros H.
  specialize (H LoginScreen net_empty_detail bob "" eq_refl eq_refl).
  vm_compute in H. discriminate H.
Qed.

(** C2, amended.  For every failed request on either screen: if the response
    body carries a non-empty string [detail] X, the error state is X and the
    screen shows X; if there is no [detail] (no response at all, or a
    response whose body has none) or [detail] is the empty string, the error
    state is the screen's generic message and the screen shows it. *)
Theorem failed_request_error_message
    (s : Screen) (net : Network) (w : World) (o : HttpOutcome) :
  net (endpoint s) (credentials (userId w) (password w)) = o →
  failed o = true →
  let w' := final (run net (handler s (userId w) (password w)) w) in
  (∀ X : string, X ≠ "" → body_detail o = Some (JStr X) →
     error w' = JStr X ∧ error_banner w' = Some (JStr X)) ∧
  (body_detail o = None ∨ body_detail o = Some (JStr "") →
     error w' = JStr (generic_message s) ∧
     error_banner w' = Some (JStr (generic_message s))).
Proof.
  intros Hnet Hf w'. subst w'.
  destruct (failed_settle o Hf) as [err Herr].
  erewrite run_failed by (rewrite Hnet; exact Herr).
  unfold shown, error_banner. rewrite (detail_of_failure o err Herr). simpl.
  split.
  - intros X HX ->. simpl. apply String.eqb_neq in HX. rewrite HX. simpl.
    by rewrite HX.
  - intros [-> | ->]; simpl; by destruct s.
Qed.

Lemma failed_request_error_message_witness :
  error (final (run net_user_exists (handler RegisterScreen "alice" "pw123") alice))
    = JStr "user exists" ∧
  error (final (run net_down (handler LoginScreen "bob" "x") bob))
    = JStr "Login failed.".
Proof.
  split.
  - apply (proj1 (failed_request_error_message RegisterScreen net_user_exists alice
                    _ eq_refl eq_refl) "user exists").
    + discriminate.
    + reflexivity.
  - apply (proj2 (failed_request_error_message LoginScreen net_down bob
                    _ eq_refl eq_refl)).
    left. reflexivity.
Defined.

(** ** Every submission: the error is cleared first *)

(** C3, as stated, fails: a setter only requests its update, which React
    applies when the running piece of the handler has returned, so the
    request is issued in a world whose error state is still the old one. *)
Lemma error_not_yet_cleared_at_request :
  ¬ (∀ (s : Screen) (net : Network) (uid pw : string) (w : World),
       ∃ (w1 : World) (rest : list Step),
         trace (run net (handler s uid pw) w) =
           step w PreventDefault :: step w (SetError (JStr "")) ::
           step w1 (AxiosPost (endpoint s) (credentials uid pw)) :: rest
         ∧ error w1 = JStr "").
Proof.
  intros H.
  destruct (H LoginScreen net_down "bob" "x" bob) as (w1 & rest & Htr & He).
  rewrite (run_failed LoginScreen net_down "bob" "x" bob (AxiosError None) eq_refl) in Htr.
  apply (f_equal (fmap (M := list) at_world)) in Htr. simpl in Htr.
  injection Htr as Hw1 _. rewrite <- Hw1 in He. discriminate He.
Qed.

(** C3, amended.  On either screen and from any prior state, the handler's
    first calls are [preventDefault] and [setError("")], made before the
    request is issued; when the handler is parked at its [await] the error
    state is the empty string, and every call the handler makes once the
    answer has arrived is made with the error state empty. *)
Theorem submission_clears_error_first
    (s : Screen) (net : Network) (uid pw : string) (w : World) :
  ∃ (k : Exn + AxiosResponse → Prog unit) (parked : World) (rest : list Step),
    run_sync (handler s uid pw) w [] =
      (Awaiting (endpoint s) (credentials uid pw) k, parked,
       [ step w PreventDefault; step w (SetError (JStr ""));
         step w (AxiosPost (endpoint s) (credentials uid pw)) ])
    ∧ parked = set_error (JStr "") w
    ∧ error parked = JStr ""
    ∧ trace (run net (handler s uid pw) w) =
        step w PreventDefault :: step w (SetError (JStr "")) ::
        step w (AxiosPost (endpoint s) (credentials uid pw)) :: rest
    ∧ Forall (λ st, error (at_world st) = JStr "") rest.
Proof.
  destruct (run_sync_handler s uid pw w) as (k & Hk & _).
  exists k, (set_error (JStr "") w).
  destruct (settled (net (endpoint s) (credentials uid pw))) as [[_ [err H]] | [_ [r H]]].
  - rewrite (run_failed s net uid pw w err H). simpl.
    eexists. repeat split; [exact Hk|]. by repeat constructor.
  - destruct s; simpl handler.
    + destruct (refused "userId" uid w) eqn:Hr.
      * rewrite (run_login_refused net uid pw w r H Hr). simpl.
        eexists. repeat split; [exact Hk|]. by repeat constructor.
      * rewrite (run_login_success net uid pw w r H Hr). simpl.
        eexists. repeat split; [exact Hk|]. by repeat constructor.
    + rewrite (run_register_success net uid pw w r H). simpl.
      eexists. repeat split; [exact Hk|]. by repeat constructor.
Qed.

(** ** Registration: success *)

(** C4.  When the POST of the registration submission is answered with a 2xx
    status, the handler presents the confirmation exactly once, then
    navigates to the login screen at "/", and returns. *)
Theorem register_success_confirms_and_navigates
    (net : Network) (uid pw : string) (w : World) (st : Z) (d : JsValue) :
  net Register.endpoint (credentials uid pw) = HttpResponse st d →
  200 ≤ st < 300 →
  let r := run net (Register.handleRegister uid pw) w in
  completion r = Returned tt ∧
  calls (trace r) =
    [ Call PreventDefault; Call (SetError (JStr ""));
      Call (AxiosPost Register.endpoint (credentials uid pw));
      Call (Alert "Registration successful! Please log in.");
      Call (Navigate "/") ] ∧
  alerts (trace r) = ["Registration successful! Please log in."] ∧
  navigations (trace r) = ["/"] ∧
  location (final r) = "/".
Proof.
  intros Hnet Hst r. subst r.
  erewrite run_register_success by (rewrite Hnet; by apply settle_success).
  done.
Qed.

Lemma register_success_confirms_and_navigates_witness :
  let r := run net_created (Register.handleRegister "alice" "pw123") alice in
  alerts (trace r) = ["Registration successful! Please log in."] ∧
  location (final r) = "/".
Proof.
  pose proof (register_success_confirms_and_navigates
                net_created "alice" "pw123" alice 201 (JObj ∅) eq_refl) as H.
  simpl. split; apply H; lia.
Defined.

(** ** One request per submission *)

(** C5.  For a non-empty identifier and secret, one submission on either
    screen issues exactly one POST, to that screen's endpoint, whose body is
    the object with the two fields [user_id] and [password] holding the
    entered values as they are. *)
Theorem submission_issues_one_post (s : Screen) (net : Network) (w : World) :
  userId w ≠ "" →
  password w ≠ "" →
  posts (trace (run net (dispatch s w SubmitForm) w)) =
    [ (endpoint s,
       JObj {[ "user_id" := JStr (userId w); "password" := JStr (password w) ]}) ].
Proof.
  intros Hu Hp.
  rewrite dispatch_submit, (requestSubmit_valid s w Hu Hp).
  destruct (settled (net (endpoint s) (credentials (userId w) (password w))))
    as [[_ [err H]] | [_ [r H]]].
  - by rewrite (run_failed s net _ _ w err H).
  - destruct s; simpl handler.
    + by login_fulfilled net (userId w) (password w) w r H.
    + by rewrite (run_register_success net _ _ w r H).
Qed.

Lemma submission_issues_one_post_witness :
  posts (trace (run net_created (dispatch RegisterScreen alice SubmitForm) alice)) =
    [ ("http://127.0.0.1:8000/register",
       JObj {[ "user_id" := JStr "alice"; "password" := JStr "pw123" ]}) ].
Proof.
  apply (submission_issues_one_post RegisterScreen net_created alice); discriminate.
Defined.

(** ** The link under the login form *)

(** C6.  Activating the "Sign up" link of the login screen makes one call,
    [navigate("/register")]: the route becomes "/register", no request is
    issued, and the identifier, secret and error state are left as they
    were. *)
Theorem sign_up_link_only_navigates (net : Network) (w : World) :
  let r := run net (Login.dispatch w ClickLink) w in
  completion r = Returned tt ∧
  calls (trace r) = [Call (Navigate "/register")] ∧
  posts (trace r) = [] ∧
  location (final r) = "/register" ∧
  userId (final r) = userId w ∧
  password (final r) = password w ∧
  error (final r) = error w ∧
  localStorage (final r) = localStorage w.
Proof. done. Qed.

(** ** Required fields *)

(** C7.  A submission attempt on either screen with an empty identifier or
    an empty secret is stopped by the validation of the required inputs: the
    handler is not entered, so no call is made at all, in particular no
    POST, and the world is unchanged. *)
Theorem empty_field_blocks_submission (s : Screen) (net : Network) (w : World) :
  userId w = "" ∨ password w = "" →
  let r := run net (dispatch s w SubmitForm) w in
  posts (trace r) = [] ∧ trace r = [] ∧ final r = w.
Proof.
  intros H r. subst r.
  by rewrite dispatch_submit, (requestSubmit_invalid s w H).
Qed.

Lemma empty_field_blocks_submission_witness :
  posts (trace (run net_ok (dispatch LoginScreen nobody SubmitForm) nobody)) = [].
Proof.
  apply (empty_field_blocks_submission LoginScreen net_ok nobody).
  left. reflexivity.
Defined.

(** The guard is the form's, not the handler's: entered directly with empty
    fields, either handler posts them. *)
Remark handler_has_no_guard (s : Screen) (net : Network) (w : World) :
  posts (trace (run net (handler s EmptyString EmptyString) w)) =
    [(endpoint s, credentials EmptyString EmptyString)].
Proof.
  destruct (settled (net (endpoint s) (credentials EmptyString EmptyString)))
    as [[_ [err H]] | [_ [r H]]].
  - by rewrite (run_failed s net _ _ w err H).
  - destruct s; simpl handler.
    + by login_fulfilled net EmptyString EmptyString w r H.
    + by rewrite (run_register_success net _ _ w r H).
Qed.

(** ** Failed requests: control flow and frame *)

(** C8.  For every failing request on either screen, the handler returns
    normally (no exception escapes it) and the trace holds the one POST of
    the submission and no other. *)
Theorem failure_is_caught_and_not_retried
    (s : Screen) (net : Network) (uid pw : string) (w : World) :
  failed (net (endpoint s) (credentials uid pw)) = true →
  let r := run net (handler s uid pw) w in
  completion r = Returned tt ∧
  posts (trace r) = [(endpoint s, credentials uid pw)] ∧
  length (posts (trace r)) = 1%nat.
Proof.
  intros Hf r. subst r.
  destruct (failed_settle _ Hf) as [err Herr].
  by rewrite (run_failed s net uid pw w err Herr).
Qed.

Lemma failure_is_caught_and_not_retried_witness :
  let r := run net_down (handler LoginScreen "bob" "x") bob in
  completion r = Returned tt ∧
  posts (trace r) = [(endpoint LoginScreen, credentials "bob" "x")] ∧
  length (posts (trace r)) = 1%nat.
Proof.
  apply (failure_is_caught_and_not_retried LoginScreen net_down "bob" "x" bob).
  reflexivity.
Defined.

(** C9.  A failed login submission writes nothing to storage and does not
    navigate: the final world is the initial one with another error state,
    so the identifier, the secret, the storage and the route are unchanged. *)
Theorem failed_login_changes_only_error
    (net : Network) (uid pw : string) (w : World) :
  failed (net Login.endpoint (credentials uid pw)) = true →
  let r := run net (Login.handleLogin uid pw) w in
  storage_writes (trace r) = [] ∧
  navigations (trace r) = [] ∧
  final r = set_error (error (final r)) w ∧
  userId (final r) = userId w ∧
  password (final r) = password w ∧
  localStorage (final r) = localStorage w ∧
  location (final r) = location w.
Proof.
  intros Hf r. subst r.
  destruct (failed_settle _ Hf) as [err Herr].
  change (Login.handleLogin uid pw) with (handler LoginScreen uid pw).
  by rewrite (run_failed LoginScreen net uid pw w err Herr).
Qed.

Lemma failed_login_changes_only_error_witness :
  let r := run net_user_exists (Login.handleLogin "bob" "x") bob in
  storage_writes (trace r) = [] ∧
  navigations (trace r) = [] ∧
  localStorage (final r) = localStorage bob ∧
  location (final r) = location bob.
Proof.
  pose proof (failed_login_changes_only_error net_user_exists "bob" "x" bob eq_refl) as H.
  simpl in H. simpl. tauto.
Defined.

(** ** Storage writes *)

(** C10.  Whatever the user does on either screen (typing in a field,
    attempting a submission, activating the link), the [setItem] calls of
    the resulting run are the single write of the identifier under "userId"
    when the action is a successful login, and none otherwise; the storage
    changes accordingly when it accepts that write, and not at all
    otherwise; and on the registration screen no action is a successful
    login, so that screen never writes. *)
Theorem only_login_success_writes_storage
    (s : Screen) (net : Network) (w : World) (u : UiEvent) :
  let r := run net (dispatch s w u) w in
  storage_writes (trace r) =
    (if login_success s net w u then [("userId", userId w)] else []) ∧
  localStorage (final r) =
    (if login_success s net w u && negb (refused "userId" (userId w) w)
     then <["userId" := userId w]> (localStorage w)
     else localStorage w) ∧
  login_success RegisterScreen net w u = false ∧
  storage_writes (trace (run net (dispatch RegisterScreen w u) w)) = [].
Proof.
  assert (Hsub : ∀ s',
    let r := run net (requestSubmit (form s' w)) w in
    storage_writes (trace r) =
      (if login_success s' net w SubmitForm then [("userId", userId w)] else []) ∧
    localStorage (final r) =
      (if login_success s' net w SubmitForm && negb (refused "userId" (userId w) w)
       then <["userId" := userId w]> (localStorage w)
       else localStorage w)).
  { intros s'. unfold requestSubmit, login_success.
    destruct s'; simpl form;
      destruct (checkValidity _) eqn:Hv; simpl andb; try done; simpl onSubmit.
    - destruct (settled (net Login.endpoint (credentials (userId w) (password w))))
        as [[Hf [err H]] | [Hf [r H]]]; rewrite Hf; simpl negb; simpl andb.
      + change (Login.handleLogin (userId w) (password w))
          with (handler LoginScreen (userId w) (password w)).
        by rewrite (run_failed LoginScreen net _ _ w err H).
      + by login_fulfilled net (userId w) (password w) w r H.
    - destruct (settled (net Register.endpoint (credentials (userId w) (password w))))
        as [[Hf [err H]] | [Hf [r H]]].
      + change (Register.handleRegister (userId w) (password w))
          with (handler RegisterScreen (userId w) (password w)).
        by rewrite (run_failed RegisterScreen net _ _ w err H).
      + by rewrite (run_register_success net _ _ w r H). }
  intros r. subst r.
  destruct u.
  - destruct s; done.
  - destruct s; done.
  - rewrite !dispatch_submit.
    destruct (Hsub s) as [H1 H2]. destruct (Hsub RegisterScreen) as [H3 _].
    done.
  - destruct s; done.
Qed.

(** * Further properties of the two components *)

(** ** The link under the registration form *)

(** X1.  Activating the "Log in" link of the registration screen makes one
    call, [navigate("/")]: no request is issued, nothing is written to
    storage, and the identifier, secret and error state are left as they
    were. *)
Theorem log_in_link_only_navigates (net : Network) (w : World) :
  let r := run net (Register.dispatch w ClickLink) w in
  completion r = Returned tt ∧
  calls (trace r) = [Call (Navigate "/")] ∧
  posts (trace r) = [] ∧
  final r = set_location "/" w.
Proof. done. Qed.

(** ** What a failed request leaves in the error state *)

(** X2.  After a failed request on either screen the error state is the
    [detail] of the response body whenever that value is truthy, whatever
    its type (a string, but also a list of validation errors, an object, a
    number or [true]), and the screen's fixed message in every other case:
    no response, no [detail], or a [detail] that is [null], [false], [0] or
    the empty string. *)
Theorem failed_request_error_state
    (s : Screen) (net : Network) (uid pw : string) (w : World) :
  failed (net (endpoint s) (credentials uid pw)) = true →
  error (final (run net (handler s uid pw) w)) =
    match body_detail (net (endpoint s) (credentials uid pw)) with
    | Some v => if truthy v then v else JStr (generic_message s)
    | None => JStr (generic_message s)
    end.
Proof.
  intros Hf. destruct (failed_settle _ Hf) as [err Herr].
  rewrite (run_failed s net uid pw w err Herr). simpl. unfold shown.
  rewrite (detail_of_failure _ err Herr).
  by destruct (body_detail _).
Qed.

Lemma failed_request_error_state_witness :
  error (final (run net_invalid (handler RegisterScreen "alice" "pw123") alice))
    = JArr [JStr "field required"].
Proof.
  rewrite (failed_request_error_state RegisterScreen net_invalid "alice" "pw123" alice).
  - reflexivity.
  - reflexivity.
Defined.

(** X3.  After a failed request on either screen the error state is truthy:
    the [catch] clause never stores a falsy value, so the guard [error &&]
    of the error paragraph holds and the paragraph is handed the error
    state. *)
Theorem failure_leaves_truthy_error
    (s : Screen) (net : Network) (uid pw : string) (w : World) :
  failed (net (endpoint s) (credentials uid pw)) = true →
  let w' := final (run net (handler s uid pw) w) in
  truthy (error w') = true ∧ error_banner w' = Some (error w').
Proof.
  intros Hf w'. subst w'. destruct (failed_settle _ Hf) as [err Herr].
  rewrite (run_failed s net uid pw w err Herr).
  unfold error_banner. simpl. unfold shown.
  destruct (truthy (response_data_detail_opt err)) eqn:Ht.
  - by rewrite Ht.
  - by destruct s.
Qed.

Lemma failure_leaves_truthy_error_witness :
  error_banner (final (run net_empty_detail (handler LoginScreen "bob" "x") bob))
    = Some (JStr "Login failed.").
Proof.
  apply (failure_leaves_truthy_error LoginScreen net_empty_detail "bob" "x" bob).
  reflexivity.
Defined.

(** ** What a fulfilled request leaves behind *)

(** X17.  A fulfilled login whose storage write is refused is reported as a
    failed one: the exception of [setItem] is taken by the [catch] clause,
    the error state becomes "Login failed.", nothing is stored, [navigate]
    is not called and the handler returns normally. *)
Theorem refused_write_reports_login_failure
    (net : Network) (uid pw : string) (w : World) :
  failed (net Login.endpoint (credentials uid pw)) = false →
  refused "userId" uid w = true →
  let r := run net (Login.handleLogin uid pw) w in
  completion r = Returned tt ∧
  error (final r) = JStr "Login failed." ∧
  localStorage (final r) = localStorage w ∧
  navigations (trace r) = [] ∧
  location (final r) = location w.
Proof.
  intros Hf Hr r. subst r.
  destruct (settled (net Login.endpoint (credentials uid pw)))
    as [[Hf' _] | [_ [a H]]]; [congruence|].
  by rewrite (run_login_refused net uid pw w a H Hr).
Qed.

Lemma refused_write_reports_login_failure_witness :
  let r := run net_ok (Login.handleLogin "bob" "x") bob_without_storage in
  error (final r) = JStr "Login failed." ∧ location (final r) = "/".
Proof.
  pose proof (refused_write_reports_login_failure net_ok "bob" "x" bob_without_storage
                eq_refl eq_refl) as H.
  simpl in H. split; apply H.
Defined.

(** X5.  On success neither the content of the answer nor the secret leaves
    a mark: two fulfilled submissions of the same identifier from the same
    world, with any secrets, status codes and response bodies, end in the
    same world after the same storage writes, navigations and alerts. *)
Theorem success_ignores_answer_and_secret
    (s : Screen) (net1 net2 : Network) (uid pw1 pw2 : string) (w : World) :
  failed (net1 (endpoint s) (credentials uid pw1)) = false →
  failed (net2 (endpoint s) (credentials uid pw2)) = false →
  let r1 := run net1 (handler s uid pw1) w in
  let r2 := run net2 (handler s uid pw2) w in
  final r1 = final r2 ∧
  storage_writes (trace r1) = storage_writes (trace r2) ∧
  navigations (trace r1) = navigations (trace r2) ∧
  alerts (trace r1) = alerts (trace r2).
Proof.
  intros Hf1 Hf2 r1 r2. subst r1 r2.
  destruct (settled (net1 (endpoint s) (credentials uid pw1)))
    as [[Hf' _] | [_ [a1 H1]]]; [congruence|].
  destruct (settled (net2 (endpoint s) (credentials uid pw2)))
    as [[Hf' _] | [_ [a2 H2]]]; [congruence|].
  destruct s; simpl handler.
  - destruct (refused "userId" uid w) eqn:Hr.
    + by rewrite (run_login_refused net1 uid pw1 w a1 H1 Hr),
                 (run_login_refused net2 uid pw2 w a2 H2 Hr).
    + by rewrite (run_login_success net1 uid pw1 w a1 H1 Hr),
                 (run_login_success net2 uid pw2 w a2 H2 Hr).
  - by rewrite (run_register_success net1 uid pw1 w a1 H1),
               (run_register_success net2 uid pw2 w a2 H2).
Qed.

Lemma success_ignores_answer_and_secret_witness :
  final (run net_ok (handler LoginScreen "bob" "x") bob) =
  final (run net_created (handler LoginScreen "bob" "another secret") bob).
Proof.
  apply (success_ignores_answer_and_secret LoginScreen net_ok net_created
           "bob" "x" "another secret" bob); reflexivity.
Defined.

(** X6.  The secret reaches nothing but the request: with the same
    identifier and the same answer, two submissions with different secrets
    end in the same world and write the same to storage. *)
Theorem secret_reaches_only_the_request
    (s : Screen) (net1 net2 : Network) (uid pw1 pw2 : string) (w : World) :
  net1 (endpoint s) (credentials uid pw1) = net2 (endpoint s) (credentials uid pw2) →
  let r1 := run net1 (handler s uid pw1) w in
  let r2 := run net2 (handler s uid pw2) w in
  final r1 = final r2 ∧
  completion r1 = completion r2 ∧
  storage_writes (trace r1) = storage_writes (trace r2) ∧
  navigations (trace r1) = navigations (trace r2).
Proof.
  intros Hnet r1 r2. subst r1 r2.
  destruct (settled (net1 (endpoint s) (credentials uid pw1)))
    as [[_ [err H1]] | [_ [a H1]]].
  - assert (H2 := H1). rewrite Hnet in H2.
    by rewrite (run_failed s net1 uid pw1 w err H1), (run_failed s net2 uid pw2 w err H2).
  - assert (H2 := H1). rewrite Hnet in H2.
    destruct s; simpl handler.
    + destruct (refused "userId" uid w) eqn:Hr.
      * by rewrite (run_login_refused net1 uid pw1 w a H1 Hr),
                   (run_login_refused net2 uid pw2 w a H2 Hr).
      * by rewrite (run_login_success net1 uid pw1 w a H1 Hr),
                   (run_login_success net2 uid pw2 w a H2 Hr).
    + by rewrite (run_register_success net1 uid pw1 w a H1),
                 (run_register_success net2 uid pw2 w a H2).
Qed.

Lemma secret_reaches_only_the_request_witness :
  final (run net_user_exists (handler RegisterScreen "alice" "pw123") alice) =
  final (run net_user_exists (handler RegisterScreen "alice" "hunter2") alice).
Proof.
  apply (secret_reaches_only_the_request RegisterScreen net_user_exists net_user_exists
           "alice" "pw123" "hunter2" alice).
  reflexivity.
Defined.

(** ** The handlers in the event loop *)

Lemma react_submit_valid (s : Screen) (st : Loop) :
  userId (world st) ≠ "" → password (world st) ≠ "" →
  ∃ p, in_flight s (userId (world st)) p ∧
       request_body p = credentials (userId (world st)) (password (world st)) ∧
       react s st (User SubmitForm) =
         {| world := set_error (JStr "") (world st);
            pending := pending st ++ [p];
            history := history st ++
              [ step (world st) PreventDefault;
                step (world st) (SetError (JStr ""));
                step (world st)
                     (AxiosPost (endpoint s)
                        (credentials (userId (world st)) (password (world st)))) ];
            unhandled := unhandled st |}.
Proof.
  intros Hu Hp. simpl react.
  rewrite dispatch_submit, (requestSubmit_valid s _ Hu Hp). unfold advance.
  destruct (run_sync_handler s (userId (world st)) (password (world st)) (world st))
    as (k & -> & Hk).
  eexists {| request_url := endpoint s; resume := k |}.
  split; [|split; [reflexivity|]].
  - repeat split; eauto.
  - by rewrite app_nil_r.
Qed.

Lemma react_submit_invalid (s : Screen) (st : Loop) :
  userId (world st) = "" ∨ password (world st) = "" →
  react s st (User SubmitForm) = st.
Proof.
  intros H. simpl react.
  rewrite dispatch_submit, (requestSubmit_invalid s _ H). unfold advance. simpl.
  rewrite !app_nil_r. by destruct st.
Qed.

(** A user action other than a submission attempt. *)
Lemma react_edit (s : Screen) (st : Loop) (u : UiEvent) :
  u ≠ SubmitForm →
  ∃ w' e,
    react s st (User u) =
      {| world := w'; pending := pending st;
         history := history st ++ [ {| at_world := world st; event := e |} ];
         unhandled := unhandled st |}
    ∧ posts [ {| at_world := world st; event := e |} ] = []
    ∧ storage_writes [ {| at_world := world st; event := e |} ] = []
    ∧ localStorage w' = localStorage (world st)
    ∧ setItem_throws w' = setItem_throws (world st)
    ∧ error w' = error (world st).
Proof.
  intros Hu. destruct u; [| |done|]; destruct s; simpl; unfold advance; simpl;
    rewrite !app_nil_r; by eexists _, _.
Qed.

Lemma react_answer (s : Screen) (st : Loop) (i : nat) (o : HttpOutcome)
    (p : Pending) (uid : string) :
  pending st !! i = Some p →
  in_flight s uid p →
  react s st (Answer i o) =
    {| world := settled_world s uid (settle o) (world st);
       pending := delete i (pending st);
       history := history st ++ settled_steps s uid (settle o) (world st);
       unhandled := unhandled st |}.
Proof.
  intros Hi (_ & _ & _ & Hk). simpl. rewrite Hi. unfold advance. simpl.
  rewrite Hk. by rewrite !app_nil_r.
Qed.

Lemma react_answer_none (s : Screen) (st : Loop) (i : nat) (o : HttpOutcome) :
  pending st !! i = None → react s st (Answer i o) = st.
Proof. intros Hi. simpl. by rewrite Hi. Qed.

(** ** Invariants of a session *)

Lemma posts_app (t1 t2 : list Step) : posts (t1 ++ t2) = (posts t1 ++ posts t2)%list.
Proof. apply omap_app. Qed.

Lemma storage_writes_app (t1 t2 : list Step) :
  storage_writes (t1 ++ t2) = (storage_writes t1 ++ storage_writes t2)%list.
Proof. apply omap_app. Qed.

Lemma settled_steps_posts (s : Screen) (uid : string) (r : Exn + AxiosResponse) (w : World) :
  posts (settled_steps s uid r w) = [].
Proof. destruct r, s; simpl; try done. by destruct (refused "userId" uid w). Qed.

Lemma sound_boot (s : Screen) (w : World) : sound s w (boot w).
Proof. split; simpl; try done; by constructor. Qed.

Lemma sound_react (s : Screen) (w0 : World) (st : Loop) (ev : LoopEvent) :
  sound s w0 st → sound s w0 (react s st ev).
Proof.
  intros [Hpend Hun Hposts Hframe Hreg Hwr].
  destruct ev as [u | i o].
  - destruct (decide (u = SubmitForm)) as [-> | Hu].
    + destruct (decide (userId (world st) = "")) as [He | Hne];
        [rewrite react_submit_invalid by eauto; by split|].
      destruct (decide (password (world st) = "")) as [He | Hnp];
        [rewrite react_submit_invalid by eauto; by split|].
      destruct (react_submit_valid s st Hne Hnp) as (p & Hp & Hbody & ->).
      assert (Hurl : request_url p = endpoint s) by apply Hp.
      split; simpl; rewrite ?posts_app, ?storage_writes_app; simpl;
        rewrite ?app_nil_r; try done.
      * apply Forall_app. split.
        -- eapply Forall_impl; [exact Hpend|]. intros q [Hq Hin].
           split; [done|]. apply elem_of_app. by left.
        -- constructor; [|constructor]. split; [eauto|].
           rewrite Hurl, Hbody. apply elem_of_app. right. by apply list_elem_of_singleton.
      * apply Forall_app. split; [done|].
        constructor; [|constructor]. split; [done|]. simpl. eauto.
      * eapply Forall_impl; [exact Hwr|]. intros kv [Hk [pw Hin]].
        split; [done|]. exists pw. apply elem_of_app. by left.
    + destruct (react_edit s st u Hu) as (w' & e & -> & Hp & Hs & Hl & _ & He).
      split; simpl; rewrite ?posts_app, ?storage_writes_app, ?Hp, ?Hs, ?app_nil_r, ?Hl;
        done.
  - destruct (pending st !! i) as [p|] eqn:Hi;
      [|rewrite react_answer_none by done; by split].
    destruct (Forall_lookup_1 _ _ _ _ Hpend Hi) as [[uid Hfl] Hin].
    rewrite (react_answer s st i o p uid Hi Hfl).
    destruct Hfl as (Huid & Hurl & (pw & Hpw & Hbody) & _).
    rewrite Hurl, Hbody in Hin.
    split; simpl; rewrite ?posts_app, ?storage_writes_app, ?settled_steps_posts, ?app_nil_r;
      try done.
    + by apply Forall_delete.
    + intros key Hkey. rewrite <- (Hframe key Hkey).
      destruct (settle o), s; simpl; try done.
      destruct (refused "userId" uid (world st)); simpl; [done|].
      by rewrite lookup_insert_ne.
    + intros ->. destruct (Hreg eq_refl) as [Hl Hs]. rewrite Hs.
      by destruct (settle o).
    + apply Forall_app. split; [done|].
      destruct (settle o), s; simpl; try by constructor.
      destruct (refused "userId" uid (world st)); simpl;
        (constructor; [|constructor]); split; try done; simpl; eauto.
Qed.

Lemma sound_exec (s : Screen) (w0 : World) (events : list LoopEvent) (st : Loop) :
  sound s w0 st → sound s w0 (exec s events st).
Proof.
  revert st. induction events as [|ev events IH]; intros st Hst; [done|].
  simpl. apply IH. by apply sound_react.
Qed.

Lemma react_posts_count (s : Screen) (w0 : World) (st : Loop) (ev : LoopEvent) :
  sound s w0 st →
  (length (posts (history (react s st ev)))
   ≤ length (posts (history st)) + (if is_submission ev then 1 else 0))%nat.
Proof.
  intros Hst. destruct ev as [u | i o].
  - destruct (decide (u = SubmitForm)) as [-> | Hu].
    + destruct (decide (userId (world st) = "")) as [He | Hne];
        [rewrite react_submit_invalid by eauto; simpl; lia|].
      destruct (decide (password (world st) = "")) as [He | Hnp];
        [rewrite react_submit_invalid by eauto; simpl; lia|].
      destruct (react_submit_valid s st Hne Hnp) as (p & _ & _ & ->).
      simpl. rewrite posts_app, length_app. simpl. lia.
    + destruct (react_edit s st u Hu) as (w' & e & -> & Hp & _).
      simpl history. rewrite posts_app, Hp, app_nil_r. lia.
  - destruct (pending st !! i) as [p|] eqn:Hi;
      [|rewrite react_answer_none by done; simpl; lia].
    destruct (Forall_lookup_1 _ _ _ _ (sound_pending _ _ _ Hst) Hi) as [[uid Hfl] _].
    rewrite (react_answer s st i o p uid Hi Hfl). simpl history.
    rewrite posts_app, settled_steps_posts, app_nil_r. simpl. lia.
Qed.

Lemma exec_app (s : Screen) (l1 l2 : list LoopEvent) (st : Loop) :
  exec s (l1 ++ l2) st = exec s l2 (exec s l1 st).
Proof. apply foldl_app. Qed.

Lemma exec_posts_count (s : Screen) (w0 : World) (events : list LoopEvent) (st : Loop) :
  sound s w0 st →
  (length (posts (history (exec s events st)))
   ≤ length (posts (history st)) + length (filter (λ ev, is_submission ev = true) events))%nat.
Proof.
  revert st. induction events as [|ev events IH]; intros st Hst; [simpl; lia|].
  simpl exec. specialize (IH _ (sound_react s w0 st ev Hst)).
  pose proof (react_posts_count s w0 st ev Hst) as Hstep.
  destruct (is_submission ev) eqn:Hev.
  - rewrite filter_cons_True by done. simpl. lia.
  - rewrite filter_cons_False by (by rewrite Hev). lia.
Qed.

Lemma exec_edits (s : Screen) (us : list UiEvent) (st : Loop) :
  edits_only us →
  let st' := exec s (User <$> us) st in
  pending st' = pending st ∧
  unhandled st' = unhandled st ∧
  posts (history st') = posts (history st) ∧
  storage_writes (history st') = storage_writes (history st) ∧
  localStorage (world st') = localStorage (world st) ∧
  setItem_throws (world st') = setItem_throws (world st) ∧
  error (world st') = error (world st).
Proof.
  revert st. induction us as [|u us IH]; intros st Hus; [done|].
  apply Forall_cons in Hus as [Hu Hus]. cbn zeta.
  change (exec s (User <$> u :: us) st)
    with (exec s (User <$> us) (react s st (User u))).
  destruct (react_edit s st u Hu) as (w' & e & Hr & Hp & Hs & Hl & Ht & He).
  destruct (IH (react s st (User u)) Hus) as (H1 & H2 & H3 & H4 & H5 & H6 & H7).
  rewrite H1, H2, H3, H4, H5, H6, H7, Hr. simpl.
  by rewrite posts_app, storage_writes_app, Hp, Hs, !app_nil_r.
Qed.

Lemma typing_is_editing (us : list UiEvent) : typing_only us → edits_only us.
Proof.
  intros H. eapply Forall_impl; [exact H|]. by intros u [v [-> | ->]].
Qed.

(** ** Sessions: any user actions, any answers, in any order *)

(** X7.  Whatever the user does on a screen and however the requests in
    flight are answered, every request the screen ever issues goes to the
    screen's endpoint and carries a non-empty identifier and a non-empty
    secret in a body of the shape [{ user_id, password }]. *)
Theorem session_posts_are_well_formed
    (s : Screen) (events : list LoopEvent) (w : World) :
  Forall (well_formed_post s) (posts (history (exec s events (boot w)))).
Proof. apply (sound_posts s w), sound_exec, sound_boot. Qed.

(** X8.  No request is ever issued but by a submission attempt, and at most
    one by each: in every session the number of requests is at most the
    number of submission attempts, however many answers were failures. *)
Theorem session_never_retries
    (s : Screen) (events : list LoopEvent) (w : World) :
  (length (posts (history (exec s events (boot w))))
   ≤ length (filter (λ ev, is_submission ev = true) events))%nat.
Proof. apply (exec_posts_count s w events (boot w)), sound_boot. Qed.

(** X9.  In every session no exception escapes a handler: neither a
    rejected request nor the property reads of the [catch] clause ever
    produce an unhandled rejection. *)
Theorem session_has_no_unhandled_rejection
    (s : Screen) (events : list LoopEvent) (w : World) :
  unhandled (exec s events (boot w)) = [].
Proof. apply (sound_unhandled s w), sound_exec, sound_boot. Qed.

(** X10.  In every session of the registration screen the storage is never
    written: it is at the end what it was at the start. *)
Theorem register_session_never_writes_storage
    (events : list LoopEvent) (w : World) :
  localStorage (world (exec RegisterScreen events (boot w))) = localStorage w ∧
  storage_writes (history (exec RegisterScreen events (boot w))) = [].
Proof.
  apply (sound_register RegisterScreen w); [|done].
  apply sound_exec, sound_boot.
Qed.

(** X11.  In every session of the login screen the only storage key ever
    written is "userId", every other key keeps its value, and every value
    written is the identifier of a request the screen has issued before. *)
Theorem login_session_stores_only_submitted_identifiers
    (events : list LoopEvent) (w : World) :
  let st := exec LoginScreen events (boot w) in
  (∀ key, key ≠ "userId" → localStorage (world st) !! key = localStorage w !! key) ∧
  Forall (λ kv, kv.1 = "userId" ∧
                ∃ pw, (Login.endpoint, credentials kv.2 pw) ∈ posts (history st))
         (storage_writes (history st)).
Proof.
  pose proof (sound_exec LoginScreen w events (boot w) (sound_boot _ _)) as H.
  split; [apply (sound_frame _ _ _ H) | apply (sound_writes _ _ _ H)].
Qed.

Lemma login_session_stores_only_submitted_identifiers_witness :
  let st := exec LoginScreen [User SubmitForm; Answer 0 (HttpResponse 200 (JObj ∅))]
              (boot returning) in
  localStorage (world st) !! "theme" = Some "dark" ∧
  localStorage (world st) !! "userId" = Some "bob".
Proof.
  split; [|reflexivity].
  etrans.
  - apply (proj1 (login_session_stores_only_submitted_identifiers
                    [User SubmitForm; Answer 0 (HttpResponse 200 (JObj ∅))] returning)).
    discriminate.
  - reflexivity.
Defined.

(** X12.  Typing in the fields never issues a request, never writes to
    storage and never changes the error state (it does not clear a message
    left by a failed submission), and the requests in flight stay in
    flight. *)
Theorem typing_touches_neither_network_storage_nor_error
    (s : Screen) (us : list UiEvent) (st : Loop) :
  typing_only us →
  let st' := exec s (User <$> us) st in
  pending st' = pending st ∧
  posts (history st') = posts (history st) ∧
  storage_writes (history st') = storage_writes (history st) ∧
  localStorage (world st') = localStorage (world st) ∧
  error (world st') = error (world st).
Proof.
  intros Hus.
  destruct (exec_edits s us st (typing_is_editing us Hus)) as (? & ? & ? & ? & ? & ? & ?).
  done.
Qed.

Lemma typing_touches_neither_network_storage_nor_error_witness :
  error (world (exec LoginScreen
                  (User <$> [TypeUserId "bobby"; TypePassword "y"])
                  (boot bob)))
    = JStr "stale".
Proof.
  apply (typing_touches_neither_network_storage_nor_error LoginScreen
           [TypeUserId "bobby"; TypePassword "y"] (boot bob)).
  repeat constructor; eexists; eauto.
Defined.

(** X13.  The login handler stores the identifier it was submitted with, not
    the one in the field when the answer arrives: after a valid submission,
    whatever the user types or clicks while the request is in flight, a 2xx
    answer, when the storage accepts the write, writes the submitted
    identifier under "userId", navigates to "/profile" and leaves no request
    in flight. *)
Theorem stored_identifier_is_the_submitted_one
    (w : World) (us : list UiEvent) (st : Z) (d : JsValue) :
  userId w ≠ "" →
  password w ≠ "" →
  edits_only us →
  200 ≤ st < 300 →
  refused "userId" (userId w) w = false →
  let end_ := exec LoginScreen
                (User SubmitForm :: (User <$> us) ++ [Answer 0 (HttpResponse st d)])
                (boot w) in
  localStorage (world end_) !! "userId" = Some (userId w) ∧
  storage_writes (history end_) = [("userId", userId w)] ∧
  location (world end_) = "/profile" ∧
  pending end_ = [].
Proof.
  intros Hu Hp Hus Hst Hacc end_. subst end_.
  change (exec LoginScreen (User SubmitForm :: (User <$> us) ++ [Answer 0 (HttpResponse st d)])
            (boot w))
    with (exec LoginScreen ((User <$> us) ++ [Answer 0 (HttpResponse st d)])
            (react LoginScreen (boot w) (User SubmitForm))).
  destruct (react_submit_valid LoginScreen (boot w) Hu Hp) as (p & Hfl & _ & ->).
  rewrite exec_app.
  match goal with |- context [exec LoginScreen (User <$> us) ?x] => set (st1 := x) end.
  destruct (exec_edits LoginScreen us st1 Hus) as (Hpend & _ & _ & Hsw & Hl & Ht & _).
  set (st2 := exec LoginScreen (User <$> us) st1) in *.
  assert (Hi : pending st2 !! 0%nat = Some p) by (by rewrite Hpend).
  assert (Hacc2 : refused "userId" (userId w) (world st2) = false).
  { unfold refused in *. by rewrite Ht, Hl. }
  change (exec LoginScreen [Answer 0 (HttpResponse st d)] st2)
    with (react LoginScreen st2 (Answer 0 (HttpResponse st d))).
  rewrite (react_answer LoginScreen st2 0 _ p _ Hi Hfl).
  rewrite (settle_success st d Hst). simpl.
  change (userId (world (boot w))) with (userId w). rewrite Hacc2. simpl.
  rewrite lookup_insert_eq, storage_writes_app, Hsw, Hpend. done.
Qed.

Lemma stored_identifier_is_the_submitted_one_witness :
  localStorage
    (world (exec LoginScreen
              (User SubmitForm :: (User <$> [TypeUserId "mallory"])
                 ++ [Answer 0 (HttpResponse 200 (JObj ∅))])
              (boot bob))) !! "userId" = Some "bob".
Proof.
  apply (stored_identifier_is_the_submitted_one bob [TypeUserId "mallory"] 200 (JObj ∅)).
  - discriminate.
  - discriminate.
  - repeat constructor; discriminate.
  - lia.
  - reflexivity.
Defined.

(** X14.  The answer that arrives last decides the message: while the screen
    has not navigated away, a failed answer to any request in flight sets
    the error state to that answer's [detail] if it is truthy and to the
    screen's fixed message otherwise, whatever was shown before and however
    many other requests are in flight. *)
Theorem last_failed_answer_decides_error
    (s : Screen) (events : list LoopEvent) (w : World) (i : nat) (o : HttpOutcome) :
  (i < length (pending (exec s events (boot w))))%nat →
  navigations (history (exec s events (boot w))) = [] →
  failed o = true →
  error (world (exec s (events ++ [Answer i o]) (boot w))) =
    match body_detail o with
    | Some v => if truthy v then v else JStr (generic_message s)
    | None => JStr (generic_message s)
    end.
Proof.
  intros Hi _ Hf. rewrite exec_app.
  pose proof (sound_exec s w events (boot w) (sound_boot _ _)) as Hsound.
  set (st := exec s events (boot w)) in *.
  destruct (lookup_lt_is_Some_2 _ _ Hi) as [p Hp].
  destruct (Forall_lookup_1 _ _ _ _ (sound_pending _ _ _ Hsound) Hp) as [[uid Hfl] _].
  change (exec s [Answer i o] st) with (react s st (Answer i o)).
  rewrite (react_answer s st i o p uid Hp Hfl).
  destruct (failed_settle o Hf) as [err Herr]. rewrite Herr. simpl. unfold shown.
  rewrite (detail_of_failure o err Herr). by destruct (body_detail o).
Qed.

Lemma last_failed_answer_decides_error_witness :
  error (world (exec RegisterScreen
                  ([User SubmitForm; User SubmitForm; Answer 0 NoResponse]
                     ++ [Answer 0 (HttpResponse 400 (JObj {[ "detail" := JStr "user exists" ]}))])
                  (boot alice)))
    = JStr "user exists".
Proof.
  rewrite (last_failed_answer_decides_error RegisterScreen
             [User SubmitForm; User SubmitForm; Answer 0 NoResponse] alice 0
             (HttpResponse 400 (JObj {[ "detail" := JStr "user exists" ]}))).
  - reflexivity.
  - simpl. lia.
  - reflexivity.
  - reflexivity.
Defined.

(** X4.  A fulfilled answer does not touch the error state, provided that on
    the login screen the storage accepts the write: after its [await] the
    handler calls [setError] on no other path than through the [catch]
    clause.  The error state is then what it was when the answer arrived,
    be it the empty string set by the submission or the message left in the
    meantime by the failure of another request. *)
Theorem fulfilled_answer_keeps_error
    (s : Screen) (events : list LoopEvent) (w : World) (i : nat) (o : HttpOutcome) :
  (i < length (pending (exec s events (boot w))))%nat →
  failed o = false →
  (s = LoginScreen → ∀ v, refused "userId" v (world (exec s events (boot w))) = false) →
  error (world (exec s (events ++ [Answer i o]) (boot w))) =
    error (world (exec s events (boot w))).
Proof.
  intros Hi Hf Hacc. rewrite exec_app.
  pose proof (sound_exec s w events (boot w) (sound_boot _ _)) as Hsound.
  set (st := exec s events (boot w)) in *.
  destruct (lookup_lt_is_Some_2 _ _ Hi) as [p Hp].
  destruct (Forall_lookup_1 _ _ _ _ (sound_pending _ _ _ Hsound) Hp) as [[uid Hfl] _].
  change (exec s [Answer i o] st) with (react s st (Answer i o)).
  rewrite (react_answer s st i o p uid Hp Hfl).
  destruct (settled o) as [[Hf' _] | [_ [a Ha]]]; [congruence|].
  rewrite Ha. destruct s; simpl; [|done].
  by rewrite (Hacc eq_refl uid).
Qed.

Lemma fulfilled_answer_keeps_error_witness :
  error (world (exec LoginScreen
                  ([User SubmitForm; User SubmitForm;
                    Answer 0 (HttpResponse 400 (JObj {[ "detail" := JStr "user exists" ]}))]
                     ++ [Answer 0 (HttpResponse 200 (JObj ∅))])
                  (boot bob)))
    = JStr "user exists".
Proof.
  rewrite (fulfilled_answer_keeps_error LoginScreen
             [User SubmitForm; User SubmitForm;
              Answer 0 (HttpResponse 400 (JObj {[ "detail" := JStr "user exists" ]}))]
             bob 0 (HttpResponse 200 (JObj ∅))).
  - reflexivity.
  - vm_compute. lia.
  - reflexivity.
  - intros _ v. reflexivity.
Defined.

(** X15.  What is sent is what was typed last: whatever happened before on
    the screen, typing a non-empty identifier, then a non-empty secret, then
    submitting issues exactly one more request, to the screen's endpoint,
    with exactly these two values. *)
Theorem typing_then_submitting_sends_what_was_typed
    (s : Screen) (events : list LoopEvent) (w : World) (uid pw : string) :
  uid ≠ "" →
  pw ≠ "" →
  posts (history (exec s (events ++ [User (TypeUserId uid); User (TypePassword pw);
                                     User SubmitForm]) (boot w))) =
    (posts (history (exec s events (boot w))) ++ [(endpoint s, credentials uid pw)])%list.
Proof.
  intros Hu Hp. rewrite exec_app.
  set (st := exec s events (boot w)).
  change (exec s [User (TypeUserId uid); User (TypePassword pw); User SubmitForm] st)
    with (react s (react s (react s st (User (TypeUserId uid))) (User (TypePassword pw)))
                (User SubmitForm)).
  set (st2 := react s (react s st (User (TypeUserId uid))) (User (TypePassword pw))).
  assert (Hw : world st2 = set_password pw (set_userId uid (world st))) by (by destruct s).
  assert (Hh : posts (history st2) = posts (history st)).
  { subst st2. destruct s; simpl; unfold advance; simpl;
      rewrite !posts_app; simpl; by rewrite !app_nil_r. }
  destruct (react_submit_valid s st2) as (p & _ & _ & ->).
  - by rewrite Hw.
  - by rewrite Hw.
  - simpl. rewrite posts_app, Hh, Hw. done.
Qed.

Lemma typing_then_submitting_sends_what_was_typed_witness :
  posts (history (exec LoginScreen
                    ([User SubmitForm; Answer 0 NoResponse]
                       ++ [User (TypeUserId "carol"); User (TypePassword "s3");
                           User SubmitForm])
                    (boot nobody))) =
    (posts (history (exec LoginScreen [User SubmitForm; Answer 0 NoResponse] (boot nobody)))
       ++ [(endpoint LoginScreen, credentials "carol" "s3")])%list.
Proof.
  apply (typing_then_submitting_sends_what_was_typed LoginScreen
           [User SubmitForm; Answer 0 NoResponse] nobody "carol" "s3"); discriminate.
Defined.

(** X16.  The loop and the one-piece run agree: a submission attempt whose
    request, if one is issued, is answered before anything else happens
    leaves the world and makes the calls that [run] gives with a network
    answering the same way, with nothing in flight and nothing unhandled. *)
Theorem loop_agrees_with_run (s : Screen) (net : Network) (w : World) :
  let o := net (endpoint s) (credentials (userId w) (password w)) in
  let st := exec s [User SubmitForm; Answer 0 o] (boot w) in
  let r := run net (dispatch s w SubmitForm) w in
  world st = final r ∧
  history st = trace r ∧
  pending st = [] ∧
  unhandled st = [].
Proof.
  intros o st r. subst st r.
  change (exec s [User SubmitForm; Answer 0 o] (boot w))
    with (react s (react s (boot w) (User SubmitForm)) (Answer 0 o)).
  rewrite dispatch_submit.
  destruct (decide (userId w = "")) as [He | Hu];
    [rewrite react_submit_invalid, (requestSubmit_invalid s w) by eauto; done|].
  destruct (decide (password w = "")) as [He | Hp];
    [rewrite react_submit_invalid, (requestSubmit_invalid s w) by eauto; done|].
  destruct (react_submit_valid s (boot w) Hu Hp) as (p & Hfl & _ & ->).
  rewrite (react_answer s _ 0 o p (userId w)); [|reflexivity|exact Hfl].
  rewrite (requestSubmit_valid s w Hu Hp). simpl.
  destruct (settled o) as [[_ [err H]] | [_ [a H]]]; subst o; rewrite H.
  - by rewrite (run_failed s net _ _ w err H).
  - destruct s; simpl handler.
    + login_fulfilled net (userId w) (password w) w a H; cbn;
        change (refused "userId" (userId w) (set_error (JStr "") w))
          with (refused "userId" (userId w) w);
        by rewrite Hr.
    + by rewrite (run_register_success net _ _ w a H).
Qed.
